(** * BDM_Server.h: client registry, sessions and long-poll callbacks

  A shallow embedding of [cppForSwig/BDM_Server.h] (BitcoinArmory):
  [SocketCallback], [BDV_Server_Object] and [Clients].  Members whose
  bodies are in the header are transcribed from it; members that the
  header only declares are modelled from the written specification and
  are marked as such. *)

From stdpp Require Import gmap strings list fin_maps.
From Stdlib Require Import ZArith NArith.

(** #define CALLBACK_EXPIRE_COUNT 5 *)
Definition CALLBACK_EXPIRE_COUNT : Z := 5.

(** enum WalletType { TypeWallet, TypeLockbox } *)
Inductive WalletType := TypeWallet | TypeLockbox.

(* ------------------------------------------------------------------ *)
(** ** [unsigned]: machine integers with wrap-around

    [unsigned] has 32 bits on the platforms the project is built for. *)

Module Unsigned.

Definition width : Z := 32.
Definition modulus : Z := 2 ^ width.

(** Arithmetic on [unsigned] is arithmetic modulo [2^32]. *)
Definition wrap (z : Z) : Z := z mod modulus.

Definition add (a b : Z) : Z := wrap (a + b).

(** [atomic<unsigned>::fetch_add(v)]: stores the wrapped sum and returns
    the value held before. *)
Definition fetch_add (cell v : Z) : Z * Z := (cell, add cell v).

Definition in_range (z : Z) : Prop := (0 <= z < modulus)%Z.

End Unsigned.

(* ------------------------------------------------------------------ *)
(** ** [std::mutex] with the thread that holds it *)

Module Mutex.

Definition thread := nat.

Inductive mutex := Free | HeldBy (owner : thread).

#[global] Instance mutex_eq_dec : EqDecision mutex.
Proof. solve_decision. Defined.

(** [try_lock]: succeeds exactly when nobody holds the mutex. *)
Definition try_lock (self : thread) (m : mutex) : bool * mutex :=
  match m with
  | Free => (true, HeldBy self)
  | HeldBy _ => (false, m)
  end.

(** [lock]: the blocking acquisition; [None] stands for a caller that
    has to wait because another thread holds the mutex. *)
Definition lock (self : thread) (m : mutex) : option mutex :=
  match m with
  | Free => Some (HeldBy self)
  | HeldBy _ => None
  end.

(** Releasing, as done by the destructor of a [unique_lock] that owns
    the mutex. *)
Definition unlock (self : thread) (m : mutex) : mutex :=
  match m with
  | HeldBy o => if decide (o = self) then Free else m
  | Free => Free
  end.

Definition held_by (self : thread) (m : mutex) : bool :=
  bool_decide (m = HeldBy self).

End Mutex.

(* ------------------------------------------------------------------ *)
(** ** class SocketCallback *)

Module SocketCallback.
Import Mutex.

(** The members read or written by the inline bodies: the probe mutex
    [mu_], the liveness counter [count_], and the shutdown flag of the
    [Callback] base class, raised by [Callback::shutdown()]. *)
Record state := mk {
  mu_ : mutex;
  count_ : Z;
  shutdown_ : bool
}.

(** The constructor: [count_.store(0)]. *)
Definition SocketCallback : state :=
  {| mu_ := Free; count_ := 0; shutdown_ := false |}.

(** bool isValid(void) *)
Definition isValid (self : thread) (cb : state) : bool * state :=
  let '(acquired, mu1) := try_lock self (mu_ cb) in
  if acquired then
    let '(old, stored) := Unsigned.fetch_add (count_ cb) 1 in
    let count := Unsigned.add old 1 in
    (* the [unique_lock] goes out of scope on either return *)
    let cb' := {| mu_ := unlock self mu1; count_ := stored;
                  shutdown_ := shutdown_ cb |} in
    if (count >=? CALLBACK_EXPIRE_COUNT)%Z then (false, cb') else (true, cb')
  else (true, cb).

(** void resetCounter(void) *)
Definition resetCounter (cb : state) : state :=
  {| mu_ := mu_ cb; count_ := 0; shutdown_ := shutdown_ cb |}.

(** [n] consecutive calls of [isValid] by thread [self], with nothing
    in between. *)
Definition isValid_times (self : thread) (n : N) (cb : state) : state :=
  N.iter n (fun c => snd (isValid self c)) cb.

(** The answers of [n] consecutive calls, first call first. *)
Fixpoint isValid_answers (self : thread) (n : nat) (cb : state) : list bool :=
  match n with
  | O => []
  | S k => let '(b, cb') := isValid self cb in b :: isValid_answers self k cb'
  end.

(** *** The destructor, run against other threads

    The body of [~SocketCallback] is three actions in program order:
    [Callback::shutdown()], the blocking [unique_lock<mutex> lock(mu_)],
    and the release of that lock at the closing brace.  Only after the
    body are the members ([mu_] among them) and the [Callback] base
    destroyed, which ends the destruction.  The other threads (the
    responders, and the callers of [isValid]) enter the region guarded
    by [mu_] with [try_lock], touch the counter there and leave. *)

Inductive dtor_pc :=
| AtEntry              (* the destructor has been entered *)
| ShutdownSignalled    (* after Callback::shutdown() *)
| HoldingLock          (* after unique_lock<mutex> lock(mu_) *)
| LockReleased         (* after the closing brace of the body *)
| Destroyed.           (* members and base destroyed *)

(** Modelled from the spec: [Callback::shutdown()] of the base class
    (Server.h is not part of the header): signals shutdown to any
    in-flight responder. *)
Definition Callback_shutdown (cb : state) : state :=
  {| mu_ := mu_ cb; count_ := count_ cb; shutdown_ := true |}.

#[global] Instance dtor_pc_eq_dec : EqDecision dtor_pc.
Proof. solve_decision. Defined.

Record conf := mkConf {
  obj : state;
  pc : dtor_pc
}.

(** One action of the destructor, executed by thread [d]; [None] when the
    destructor cannot move (it waits for [mu_], or it has finished). *)
Definition dtor_step (d : thread) (c : conf) : option conf :=
  match pc c with
  | AtEntry =>
      Some {| obj := Callback_shutdown (obj c); pc := ShutdownSignalled |}
  | ShutdownSignalled =>
      match lock d (mu_ (obj c)) with
      | Some m => Some {| obj := {| mu_ := m; count_ := count_ (obj c);
                                    shutdown_ := shutdown_ (obj c) |};
                          pc := HoldingLock |}
      | None => None
      end
  | HoldingLock =>
      Some {| obj := {| mu_ := unlock d (mu_ (obj c)); count_ := count_ (obj c);
                        shutdown_ := shutdown_ (obj c) |};
              pc := LockReleased |}
  | LockReleased => Some {| obj := obj c; pc := Destroyed |}
  | Destroyed => None
  end.

(** What another thread [t] may do to the object. *)
Inductive responder_action :=
| Acquire            (* try_lock on mu_ *)
| Touch (v : Z)      (* a store to count_ inside the guarded region *)
| Release.           (* the unique_lock goes out of scope *)

Definition responder_step (t : thread) (a : responder_action) (c : conf)
  : option conf :=
  match a with
  | Acquire =>
      let '(ok, m) := try_lock t (mu_ (obj c)) in
      if ok then Some {| obj := {| mu_ := m; count_ := count_ (obj c);
                                   shutdown_ := shutdown_ (obj c) |};
                         pc := pc c |}
      else None
  | Touch v =>
      if held_by t (mu_ (obj c))
      then Some {| obj := {| mu_ := mu_ (obj c); count_ := Unsigned.wrap v;
                             shutdown_ := shutdown_ (obj c) |};
                   pc := pc c |}
      else None
  | Release =>
      if held_by t (mu_ (obj c))
      then Some {| obj := {| mu_ := unlock t (mu_ (obj c));
                             count_ := count_ (obj c);
                             shutdown_ := shutdown_ (obj c) |};
                   pc := pc c |}
      else None
  end.

(** Interleavings of the destructor thread [d] with any other threads. *)
Inductive step (d : thread) : conf -> conf -> Prop :=
| step_dtor c c' :
    dtor_step d c = Some c' -> step d c c'
| step_responder t a c c' :
    t <> d -> responder_step t a c = Some c' -> step d c c'.

(** The destructor is entered by [d] while any responder may be in
    flight: [d] itself does not hold [mu_]. *)
Definition dtor_entry (d : thread) (c : conf) : Prop :=
  pc c = AtEntry /\ mu_ (obj c) <> HeldBy d.

Inductive reachable (d : thread) : conf -> Prop :=
| reach_entry c : dtor_entry d c -> reachable d c
| reach_step c c' : reachable d c -> step d c c' -> reachable d c'.

(** Some thread other than [d] holds the probe lock. *)
Definition responder_holds (d : thread) (c : conf) : Prop :=
  exists t, t <> d /\ mu_ (obj c) = HeldBy t.

(** What holds of the probe lock and of the shutdown flag at each point
    of the destructor run by [d]. *)
Definition dtor_inv (d : thread) (c : conf) : Prop :=
  (pc c = HoldingLock <-> mu_ (obj c) = HeldBy d) /\
  (pc c <> AtEntry -> shutdown_ (obj c) = true).

End SocketCallback.

(* ------------------------------------------------------------------ *)
(** ** Outcomes of member functions that can go wrong *)

Inductive fault :=
| NullDereference.     (* [p->m()] through a null [shared_ptr] *)

Inductive outcome (A : Type) :=
| Done (a : A)         (* the call returned *)
| Faulted (f : fault)
| Waiting.             (* the caller is parked on a blocking [lock] *)

Arguments Done {A} a.
Arguments Faulted {A} f.
Arguments Waiting {A}.

#[global] Instance outcome_ret : MRet outcome := fun A a => Done a.

#[global] Instance outcome_bind : MBind outcome := fun A B k m =>
  match m with
  | Done a => k a
  | Faulted f => Faulted f
  | Waiting => Waiting
  end.

(** [*p] for a [shared_ptr]: a null pointer has no pointee. *)
Definition deref {A} (p : option A) : outcome A :=
  match p with
  | Some a => Done a
  | None => Faulted NullDereference
  end.

(* ------------------------------------------------------------------ *)
(** ** class BDV_Server_Object *)

Module BDV_Server_Object.
Import Mutex.

Definition BinaryData := list Byte.byte.

(** Modelled from the spec: the wire envelope [Arguments] (DataObject.h
    is not part of the header), an opaque typed value with
    success/error encoding. *)
Inductive Arguments :=
| ArgsValue (payload : list string)
| ArgsError (what : string).

(** How a call ends: with a value, by throwing, or not at all because
    the caller is parked (the wallet-scan-dependent methods wait on the
    readiness future). *)
Inductive completion (A : Type) :=
| Returns (a : A)
| Throws (what : string)
| Blocks.

Arguments Returns {A} a.
Arguments Throws {A} what.
Arguments Blocks {A}.

(** The mapped type of [methodMap_]:
    [function<Arguments(const vector<string>&, Arguments&)>]; a call of
    such a function may return, throw or block. *)
Definition handler := list string -> Arguments -> completion Arguments.

(** struct walletRegStruct *)
Record walletRegStruct := mkReg {
  scrAddrVec : list BinaryData;
  IDstr : string;
  isNew : bool;
  type_ : WalletType
}.

Record state := mk {
  methodMap_ : gmap string handler;
  cb_ : option SocketCallback.state;
  bdvID_ : string;
  registerWalletMutex_ : mutex;
  wltRegMap_ : gmap string walletRegStruct;
  threadsRunning_ : bool
}.

Definition set_cb (c : option SocketCallback.state) (s : state) : state :=
  {| methodMap_ := methodMap_ s; cb_ := c; bdvID_ := bdvID_ s;
     registerWalletMutex_ := registerWalletMutex_ s;
     wltRegMap_ := wltRegMap_ s; threadsRunning_ := threadsRunning_ s |}.



Definition set_threadsRunning (b : bool) (s : state) : state :=
  {| methodMap_ := methodMap_ s; cb_ := cb_ s; bdvID_ := bdvID_ s;
     registerWalletMutex_ := registerWalletMutex_ s;
     wltRegMap_ := wltRegMap_ s; threadsRunning_ := b |}.

(** const string& getID(void) const *)
Definition getID (s : state) : string := bdvID_ s.

(** void resetCounter(void) const
<<
      if (cb_ != nullptr)
         cb_->resetCounter();
>> *)
Definition resetCounter (s : state) : outcome state :=
  if bool_decide (is_Some (cb_ s)) then
    cb ← deref (cb_ s);
    Done (set_cb (Some (SocketCallback.resetCounter cb)) s)
  else Done s.

(** Modelled from the spec: the constructor [BDV_Server_Object(bdmT)],
    declared in the header and defined elsewhere.  It builds the
    immutable method-dispatch table and starts its background
    threads; the callback is optional and absent at first.  [methods]
    is the table [buildMethodMap()] builds and [id] the server-generated
    identity. *)
Definition BDV_Server_Object (methods : gmap string handler) (id : string)
  : state :=
  {| methodMap_ := methods; cb_ := None; bdvID_ := id;
     registerWalletMutex_ := Free; wltRegMap_ := ∅;
     threadsRunning_ := true |}.

(** Modelled from the spec: [haltThreads()], declared in the header:
    idempotent; signals and joins the background maintenance/init
    threads of the session. *)
Definition haltThreads (s : state) : state := set_threadsRunning false s.

















End BDV_Server_Object.

(* ------------------------------------------------------------------ *)
(** ** class Clients *)

Module Clients.
Import Mutex.

(** Modelled from the spec: the two enumerations the constructor tests,
    declared in headers that are not part of this file.  The header
    names [ARMORY_DB_SUPER] (the full-indexing supernode database) and
    [Node_UnitTest]; the other constructors stand for every other
    database type and node type. *)
Inductive ARMORY_DB_TYPE := ARMORY_DB_BARE | ARMORY_DB_FULL | ARMORY_DB_SUPER.
Inductive NodeType := Node_BTC | Node_UnitTest.

#[global] Instance ARMORY_DB_TYPE_eq_dec : EqDecision ARMORY_DB_TYPE.
Proof. solve_decision. Defined.

#[global] Instance NodeType_eq_dec : EqDecision NodeType.
Proof. solve_decision. Defined.

(** What the constructor reads through [bdmT_] and
    [BlockDataManagerConfig]. *)
Record BlockDataManagerThread := mkBdmT {
  getDbType : ARMORY_DB_TYPE;
  nodeType_ : NodeType
}.

(** The four lambdas the constructor hands to [thread]. *)
Inductive thread_role :=
| mainthread       (* commandThread() *)
| outerthread      (* bdvMaintenanceLoop() *)
| innerthread      (* bdvMaintenanceThread() *)
| gcThread.        (* garbageCollectorThread() *)

#[global] Instance thread_role_eq_dec : EqDecision thread_role.
Proof. solve_decision. Defined.

(** An element of [controlThreads_]: a [std::thread] is joinable from
    its start until it has been joined. *)
Record thread_obj := mkThread {
  role : thread_role;
  joinable : bool
}.

Definition spawn (r : thread_role) : thread_obj :=
  {| role := r; joinable := true |}.

Definition join (t : thread_obj) : thread_obj :=
  {| role := role t; joinable := false |}.

(** The members of [Clients].  [fcgiShutdownCalls_] counts the runs of
    the [fcgiShutdownCallback_] functor, [zcCallbacks_] tells whether
    [registerZcCallbacks] was called on the block data manager.  Two
    bookkeeping components are not members: [issued_], the ids handed
    out so far, and [retired_], the sessions removed from the registry,
    after their threads were halted. *)
Record state := mk {
  BDVs_ : gmap string BDV_Server_Object.state;
  bdmT_ : BlockDataManagerThread;
  fcgiShutdownCalls_ : nat;
  run_ : bool;
  controlThreads_ : list thread_obj;
  zcCallbacks_ : bool;
  issued_ : gset string;
  retired_ : list BDV_Server_Object.state
}.

Definition set_BDVs (m : gmap string BDV_Server_Object.state) (st : state)
  : state :=
  {| BDVs_ := m; bdmT_ := bdmT_ st;
     fcgiShutdownCalls_ := fcgiShutdownCalls_ st; run_ := run_ st;
     controlThreads_ := controlThreads_ st; zcCallbacks_ := zcCallbacks_ st;
     issued_ := issued_ st; retired_ := retired_ st |}.

Definition set_run (b : bool) (st : state) : state :=
  {| BDVs_ := BDVs_ st; bdmT_ := bdmT_ st;
     fcgiShutdownCalls_ := fcgiShutdownCalls_ st; run_ := b;
     controlThreads_ := controlThreads_ st; zcCallbacks_ := zcCallbacks_ st;
     issued_ := issued_ st; retired_ := retired_ st |}.

Definition set_controlThreads (l : list thread_obj) (st : state) : state :=
  {| BDVs_ := BDVs_ st; bdmT_ := bdmT_ st;
     fcgiShutdownCalls_ := fcgiShutdownCalls_ st; run_ := run_ st;
     controlThreads_ := l; zcCallbacks_ := zcCallbacks_ st;
     issued_ := issued_ st; retired_ := retired_ st |}.

Definition set_fcgiShutdownCalls (n : nat) (st : state) : state :=
  {| BDVs_ := BDVs_ st; bdmT_ := bdmT_ st;
     fcgiShutdownCalls_ := n; run_ := run_ st;
     controlThreads_ := controlThreads_ st; zcCallbacks_ := zcCallbacks_ st;
     issued_ := issued_ st; retired_ := retired_ st |}.

Definition set_issued (s : gset string) (st : state) : state :=
  {| BDVs_ := BDVs_ st; bdmT_ := bdmT_ st;
     fcgiShutdownCalls_ := fcgiShutdownCalls_ st; run_ := run_ st;
     controlThreads_ := controlThreads_ st; zcCallbacks_ := zcCallbacks_ st;
     issued_ := s; retired_ := retired_ st |}.

Definition set_retired (l : list BDV_Server_Object.state) (st : state)
  : state :=
  {| BDVs_ := BDVs_ st; bdmT_ := bdmT_ st;
     fcgiShutdownCalls_ := fcgiShutdownCalls_ st; run_ := run_ st;
     controlThreads_ := controlThreads_ st; zcCallbacks_ := zcCallbacks_ st;
     issued_ := issued_ st; retired_ := l |}.

(** The number of inner maintenance threads the constructor starts:
<<
      unsigned innerThreadCount = 2;
      if (BlockDataManagerConfig::getDbType() == ARMORY_DB_SUPER &&
         bdmT_->bdm()->config().nodeType_ != Node_UnitTest)
         innerThreadCount == thread::hardware_concurrency();
>>
    The statement under the [if] is the comparison [==]: it is evaluated
    and its value dropped; nothing is assigned. *)
Definition innerThreadCount (bdmT : BlockDataManagerThread)
    (hardware_concurrency : Z) : Z :=
  let innerThreadCount := 2%Z in
  let _ :=
    if bool_decide (getDbType bdmT = ARMORY_DB_SUPER) &&
       bool_decide (nodeType_ bdmT <> Node_UnitTest)
    then Some (innerThreadCount =? hardware_concurrency)%Z
    else None in
  innerThreadCount.

(** The thread count in the words of the specification: two in
    constrained/test mode, the hardware parallelism in full-indexing
    mode. *)
Definition innerThreadCount_spec (bdmT : BlockDataManagerThread)
    (hardware_concurrency : Z) : Z :=
  if bool_decide (getDbType bdmT = ARMORY_DB_SUPER) &&
     bool_decide (nodeType_ bdmT <> Node_UnitTest)
  then hardware_concurrency
  else 2%Z.

(** The constructor [Clients(bdmT, shutdownLambda)].
    [hardware_concurrency] is the value [thread::hardware_concurrency()]
    returns on the machine. *)
Definition Clients (bdmT : BlockDataManagerThread)
    (hardware_concurrency : Z) : state :=
  let controlThreads := [spawn mainthread; spawn outerthread] in
  let controlThreads :=
    controlThreads ++
    replicate (Z.to_nat (innerThreadCount bdmT hardware_concurrency))
      (spawn innerthread) in
  (* no gc for unit tests *)
  let controlThreads :=
    if bool_decide (nodeType_ bdmT = Node_UnitTest) then controlThreads
    else controlThreads ++ [spawn gcThread] in
  {| BDVs_ := ∅; bdmT_ := bdmT; fcgiShutdownCalls_ := 0; run_ := true;
     controlThreads_ := controlThreads; zcCallbacks_ := true;
     issued_ := ∅; retired_ := [] |}.


(** How many threads of a role are in [controlThreads_]. *)
Definition threads_of (r : thread_role) (st : state) : nat :=
  length (filter (fun t => role t = r) (controlThreads_ st)).

(** *** The registry *)

(** Modelled from the spec: [get(id)], declared in the header: looks
    the id up in the registry; the session is present or absent. *)
Definition get (id : string) (st : state) : option BDV_Server_Object.state :=
  BDVs_ st !! id.

(** Modelled from the spec: [unregisterBDV(id)], declared in the header:
    removes from registry and halts the threads of the session. *)
Definition unregisterBDV (id : string) (st : state) : state :=
  match BDVs_ st !! id with
  | Some bdv =>
      set_retired (BDV_Server_Object.haltThreads bdv :: retired_ st)
        (set_BDVs (delete id (BDVs_ st)) st)
  | None => st
  end.

(** Modelled from the spec: the liveness probe the garbage collector
    runs on one session; only a session with an attached callback is
    probed, with [isValid()]. *)
Definition gc_probe (self : thread) (bdv : BDV_Server_Object.state)
  : bool * BDV_Server_Object.state :=
  match BDV_Server_Object.cb_ bdv with
  | None => (true, bdv)
  | Some cb =>
      let '(valid, cb') := SocketCallback.isValid self cb in
      (valid, BDV_Server_Object.set_cb (Some cb') bdv)
  end.

Definition gc_keep (self : thread) (bdv : BDV_Server_Object.state)
  : option BDV_Server_Object.state :=
  let '(valid, bdv') := gc_probe self bdv in
  if valid then Some bdv' else None.

(** Modelled from the spec: one cycle of [garbageCollectorThread()],
    declared in the header: iterates the registry; for each session with
    an attached callback, calls [isValid()]; on failure, removes the
    session from the registry and halts it. *)
Definition garbageCollect (self : thread) (st : state) : state :=
  let dead :=
    filter (fun bdv => gc_keep self bdv = None)
      (snd <$> map_to_list (BDVs_ st)) in
  set_retired ((BDV_Server_Object.haltThreads <$> dead) ++ retired_ st)
    (set_BDVs (omap (gc_keep self) (BDVs_ st)) st).

(** Work done on one registered session (a command, a poll, attaching
    the callback): it changes the session, never the registry. *)
Definition onSession (id : string)
    (f : BDV_Server_Object.state -> BDV_Server_Object.state) (st : state)
  : state :=
  set_BDVs (alter f id (BDVs_ st)) st.

Section Registration.

(** The table [buildMethodMap()] fills, and the generator of session
    ids; both are defined outside the header. *)
Variable buildMethodMap : gmap string BDV_Server_Object.handler.
Variable newID : gset string -> string.

(** Modelled from the spec: [registerBDV], declared in the header:
    allocates a new session id, constructs a Session, inserts into the
    registry, returns the id. *)
Definition registerBDV (st : state) : string * state :=
  let id := newID (issued_ st) in
  let newBDV := BDV_Server_Object.BDV_Server_Object buildMethodMap id in
  (id, set_issued ({[id]} ∪ issued_ st)
         (set_BDVs (<[id := newBDV]> (BDVs_ st)) st)).

(** The operations that run against the registry. *)
Inductive op :=
| OpRegisterBDV
| OpUnregisterBDV (id : string)
| OpGarbageCollect (gc : thread)
| OpOnSession (id : string)
    (f : BDV_Server_Object.state -> BDV_Server_Object.state).

Definition exec (o : op) (st : state) : state :=
  match o with
  | OpRegisterBDV => snd (registerBDV st)
  | OpUnregisterBDV id => unregisterBDV id st
  | OpGarbageCollect gc => garbageCollect gc st
  | OpOnSession id f => onSession id f st
  end.

Fixpoint run (ops : list op) (st : state) : state :=
  match ops with
  | [] => st
  | o :: ops' => run ops' (exec o st)
  end.

(** [o], executed in [st], takes session [X] out of the registry: it is
    [unregisterBDV(X)], or a collector cycle in which the callback of
    [X] is found dead. *)
Definition removes (X : string) (o : op) (st : state) : Prop :=
  match o with
  | OpUnregisterBDV id => id = X
  | OpGarbageCollect gc =>
      exists bdv, get X st = Some bdv /\ gc_keep gc bdv = None
  | _ => False
  end.

(** No operation of [ops], run from [st], takes [X] out. *)
Fixpoint keeps (X : string) (ops : list op) (st : state) : Prop :=
  match ops with
  | [] => True
  | o :: ops' => ~ removes X o st /\ keeps X ops' (exec o st)
  end.

End Registration.

(** *** Shutdown *)

Inductive phase := Running | ShuttingDown | Stopped.

(** Modelled from the spec: the state machine of a running instance:
    Running while the run flag is set, ShuttingDown once it is cleared,
    Stopped when all threads are joined. *)
Definition phase_of (st : state) : phase :=
  if run_ st then Running
  else if forallb (fun t => negb (joinable t)) (controlThreads_ st)
       then Stopped else ShuttingDown.

(** Modelled from the spec: [unregisterAllBDVs()], declared in the
    header: unregisters every remaining session. *)
Definition unregisterAllBDVs (st : state) : state :=
  foldr unregisterBDV st (elements (dom (BDVs_ st))).

Definition clearRunFlag (st : state) : state := set_run false st.

Definition joinControlThreads (st : state) : state :=
  set_controlThreads (join <$> controlThreads_ st) st.

Definition callShutdownCallback (st : state) : state :=
  set_fcgiShutdownCalls (S (fcgiShutdownCalls_ st)) st.

(** Modelled from the spec: [shutdown()], declared in the header: flips
    to ShuttingDown, joins all orchestrator threads, unregisters every
    remaining session, and invokes the externally supplied shutdown
    callback. *)
Definition shutdown (st : state) : state :=
  callShutdownCallback
    (unregisterAllBDVs (joinControlThreads (clearRunFlag st))).

End Clients.

(* ------------------------------------------------------------------ *)
(** ** Concrete objects used in the examples *)

Module Examples.
Import Mutex.

(** A session whose table has a single method. *)
Definition oneMethodSession : BDV_Server_Object.state :=
  BDV_Server_Object.BDV_Server_Object
    {[ "getTopBlockHeight" :=
         fun (_ : list string) (_ : BDV_Server_Object.Arguments) =>
           BDV_Server_Object.Returns (BDV_Server_Object.ArgsValue ["450000"]) ]}
    "bdv0".


(** A full node on a four-way machine, and five sessions registered on
    it. *)
Definition fullNode : Clients.state :=
  Clients.Clients
    {| Clients.getDbType := Clients.ARMORY_DB_FULL;
       Clients.nodeType_ := Clients.Node_BTC |} 4.

Definition fiveSessions : Clients.state :=
  Clients.run ∅ fresh (replicate 5 Clients.OpRegisterBDV) fullNode.

(** A destruction by thread 1 that finds responder 7 in flight: the
    destructor signals shutdown, waits for the responder to leave, takes
    the lock and releases it. *)
Definition dtorEntered : SocketCallback.conf :=
  {| SocketCallback.obj :=
       {| SocketCallback.mu_ := HeldBy 7; SocketCallback.count_ := 2;
          SocketCallback.shutdown_ := false |};
     SocketCallback.pc := SocketCallback.AtEntry |}.

Definition dtorSignalled : SocketCallback.conf :=
  {| SocketCallback.obj :=
       {| SocketCallback.mu_ := HeldBy 7; SocketCallback.count_ := 2;
          SocketCallback.shutdown_ := true |};
     SocketCallback.pc := SocketCallback.ShutdownSignalled |}.

Definition responderGone : SocketCallback.conf :=
  {| SocketCallback.obj :=
       {| SocketCallback.mu_ := Free; SocketCallback.count_ := 2;
          SocketCallback.shutdown_ := true |};
     SocketCallback.pc := SocketCallback.ShutdownSignalled |}.

Definition dtorLocked : SocketCallback.conf :=
  {| SocketCallback.obj :=
       {| SocketCallback.mu_ := HeldBy 1; SocketCallback.count_ := 2;
          SocketCallback.shutdown_ := true |};
     SocketCallback.pc := SocketCallback.HoldingLock |}.

Definition dtorReleased : SocketCallback.conf :=
  {| SocketCallback.obj :=
       {| SocketCallback.mu_ := Free; SocketCallback.count_ := 2;
          SocketCallback.shutdown_ := true |};
     SocketCallback.pc := SocketCallback.LockReleased |}.

(** The same destruction with a late probe: after the destructor has
    released the lock, thread 9 enters [isValid()] and takes it; the
    destruction ends while thread 9 is still inside. *)
Definition lateProbe : SocketCallback.conf :=
  {| SocketCallback.obj :=
       {| SocketCallback.mu_ := HeldBy 9; SocketCallback.count_ := 2;
          SocketCallback.shutdown_ := true |};
     SocketCallback.pc := SocketCallback.LockReleased |}.

Definition destroyedUnderProbe : SocketCallback.conf :=
  {| SocketCallback.obj :=
       {| SocketCallback.mu_ := HeldBy 9; SocketCallback.count_ := 2;
          SocketCallback.shutdown_ := true |};
     SocketCallback.pc := SocketCallback.Destroyed |}.

End Examples.

(* ------------------------------------------------------------------ *)
(** ** Histories of a callback *)

Module History.
Import Mutex SocketCallback.

(** What reaches a callback over time: a call of [isValid()] that finds
    the probe lock free ([holder = None]) or held by another thread, or
    a call of [resetCounter()]. *)
Inductive event :=
| Probe (holder : option thread)
| Reset.

Definition lock_state (holder : option thread) : mutex :=
  match holder with
  | None => Free
  | Some t => HeldBy t
  end.

Definition with_lock (m : mutex) (cb : state) : state :=
  {| mu_ := m; count_ := count_ cb; shutdown_ := shutdown_ cb |}.

(** The answers [isValid()] gives to thread [self] along a history,
    oldest first. *)
Fixpoint answers (self : thread) (evs : list event) (cb : state)
  : list bool :=
  match evs with
  | [] => []
  | Probe holder :: evs' =>
      let '(valid, cb') := isValid self (with_lock (lock_state holder) cb) in
      valid :: answers self evs' cb'
  | Reset :: evs' => answers self evs' (resetCounter cb)
  end.

(** A history never has [CALLBACK_EXPIRE_COUNT] lock-acquiring probes in
    a row without a reset; [k] is the number of such probes already
    made since the last reset. *)
Fixpoint within_budget (k : nat) (evs : list event) : bool :=
  match evs with
  | [] => true
  | Probe None :: evs' =>
      bool_decide (S k < Z.to_nat CALLBACK_EXPIRE_COUNT)%nat &&
      within_budget (S k) evs'
  | Probe (Some _) :: evs' => within_budget k evs'
  | Reset :: evs' => within_budget 0 evs'
  end.

(** A member function called by some thread while the destructor runs:
    [resetCounter()] stores to the counter without taking [mu_]. *)
Definition reset_step (c : conf) : conf :=
  {| obj := resetCounter (obj c); pc := pc c |}.

(** A complete call of [isValid()] by thread [t]. *)
Definition isValid_step (t : thread) (c : conf) : conf :=
  {| obj := snd (isValid t (obj c)); pc := pc c |}.

(** The interleavings of the destructor with responders, to which calls
    of [resetCounter()] by any thread are added. *)
Inductive step_reset (d : thread) : conf -> conf -> Prop :=
| step_reset_base c c' : step d c c' -> step_reset d c c'
| step_reset_call c : step_reset d c (reset_step c).

Inductive reachable_reset (d : thread) : conf -> Prop :=
| reach_reset_entry c : dtor_entry d c -> reachable_reset d c
| reach_reset_step c c' :
    reachable_reset d c -> step_reset d c c' -> reachable_reset d c'.

End History.

(* ================================================================== *)
(** * Properties *)

(** ** The liveness counter *)

Section LivenessCounter.
Import Mutex SocketCallback.

Local Open Scope Z_scope.

Lemma modulus_value : Unsigned.modulus = 4294967296.
Proof. reflexivity. Qed.

Lemma wrap_small z : Unsigned.in_range z -> Unsigned.wrap z = z.
Proof. intros Hz. apply Z.mod_small, Hz. Qed.

Lemma wrap_succ z : Unsigned.wrap (Unsigned.wrap z + 1) = Unsigned.wrap (z + 1).
Proof.
  unfold Unsigned.wrap.
  rewrite Zplus_mod_idemp_l. reflexivity.
Qed.

(** A call that finds the probe lock free: the counter is incremented
    modulo [2^32], the lock is free again on return, and the answer is
    the comparison of the incremented counter with the threshold. *)
Lemma isValid_acquired self cb :
  mu_ cb = Free ->
  isValid self cb =
    (negb (CALLBACK_EXPIRE_COUNT <=? Unsigned.wrap (count_ cb + 1)),
     {| mu_ := Free; count_ := Unsigned.wrap (count_ cb + 1);
        shutdown_ := shutdown_ cb |}).
Proof.
  intros Hfree. unfold isValid. rewrite Hfree. cbn [try_lock].
  unfold Unsigned.fetch_add, Unsigned.add, unlock.
  rewrite decide_True by reflexivity.
  rewrite Z.geb_leb.
  destruct (CALLBACK_EXPIRE_COUNT <=? Unsigned.wrap (count_ cb + 1));
    reflexivity.
Qed.

(** A call that finds the probe lock taken answers [true] and leaves the
    object alone. *)
Lemma isValid_contended self t cb :
  mu_ cb = HeldBy t -> isValid self cb = (true, cb).
Proof. intros Hheld. unfold isValid. rewrite Hheld. reflexivity. Qed.

(** The object after [n] uncontended calls on a fresh callback. *)
Lemma isValid_times_fresh self (n : N) :
  isValid_times self n SocketCallback =
    {| mu_ := Free; count_ := Unsigned.wrap (Z.of_N n); shutdown_ := false |}.
Proof.
  unfold isValid_times.
  induction n as [|n IH] using N.peano_ind.
  - reflexivity.
  - rewrite N.iter_succ, IH, isValid_acquired by reflexivity.
    cbn [snd count_ shutdown_]. rewrite wrap_succ, N2Z.inj_succ.
    reflexivity.
Qed.

Lemma isValid_answers_cons self n cb :
  isValid_answers self (S n) cb =
    fst (isValid self cb) :: isValid_answers self n (snd (isValid self cb)).
Proof. cbn [isValid_answers]. destruct (isValid self cb); reflexivity. Qed.

(** Claim C1 read literally fails where the 32-bit counter wraps: on a
    fresh callback, after [2^32 - 1] uncontended calls of [isValid()]
    (more than five, and no [resetCounter()] in between), the next
    uncontended call stores zero, not an incremented counter, and
    answers [true]; the object is back in its freshly constructed
    state. *)
Lemma isValid_true_at_counter_wrap :
  (5 <= 4294967295)%N /\
  isValid 0%nat (isValid_times 0%nat 4294967295 SocketCallback)
    = (true, SocketCallback).
Proof.
  split; [discriminate|].
  rewrite isValid_times_fresh, isValid_acquired by reflexivity.
  reflexivity.
Qed.

(** Claim C1, amended to the range of the 32-bit counter.  On a callback
    whose counter starts at zero, let [n] uncontended calls of
    [isValid()] be followed by one more, with [n + 1 < 2^32].  That
    call stores [n + 1] and answers [false] exactly when [n + 1] has
    reached [CALLBACK_EXPIRE_COUNT = 5], [true] otherwise; had it found
    the probe lock held by a thread [t], it would have answered [true]
    and left the counter alone.  Hence every call from the fifth up to
    call number [2^32 - 1] answers [false]. *)
Theorem isValid_expires_below_wrap (self : thread) (n : N) :
  Z.of_N n + 1 < Unsigned.modulus ->
  let cb := isValid_times self n SocketCallback in
  isValid self cb =
    (negb (CALLBACK_EXPIRE_COUNT <=? Z.of_N n + 1),
     {| mu_ := Free; count_ := Z.of_N n + 1; shutdown_ := false |}) /\
  (forall t,
     let busy := {| mu_ := HeldBy t; count_ := count_ cb;
                    shutdown_ := shutdown_ cb |} in
     isValid self busy = (true, busy)) /\
  (fst (isValid self cb) = false <-> CALLBACK_EXPIRE_COUNT <= Z.of_N n + 1).
Proof.
  intros Hn cb. subst cb.
  rewrite isValid_times_fresh, isValid_acquired by reflexivity.
  cbn [count_ shutdown_ mu_ fst].
  assert (Hsmall : Unsigned.wrap (Z.of_N n) = Z.of_N n)
    by (apply wrap_small; unfold Unsigned.in_range; lia).
  assert (Hnext : Unsigned.wrap (Z.of_N n + 1) = Z.of_N n + 1)
    by (apply wrap_small; unfold Unsigned.in_range; lia).
  rewrite Hsmall, Hnext.
  split; [reflexivity|]. split.
  - intros t. apply (isValid_contended _ t). reflexivity.
  - rewrite negb_false_iff. apply Z.leb_le.
Qed.

Lemma isValid_expires_below_wrap_witness :
  Z.of_N 4 + 1 < Unsigned.modulus /\
  (fst (isValid 0%nat (isValid_times 0%nat 4 SocketCallback)) = false
   <-> CALLBACK_EXPIRE_COUNT <= Z.of_N 4 + 1).
Proof.
  split; [reflexivity|].
  apply (isValid_expires_below_wrap 0%nat 4). reflexivity.
Defined.

(** Claim C7.  In any counter state, [resetCounter()] stores zero, the
    counter of a freshly constructed callback, and resetting twice is
    resetting once; when the probe lock is free, the next four calls of
    [isValid()] acquire it and answer [true] (and the fifth answers
    [false]). *)
Theorem resetCounter_restores_fresh (self : thread) (cb : state) :
  count_ (resetCounter cb) = 0 /\
  count_ (resetCounter cb) = count_ SocketCallback /\
  resetCounter (resetCounter cb) = resetCounter cb /\
  (mu_ cb = Free ->
   isValid_answers self 5 (resetCounter cb)
     = [true; true; true; true; false]).
Proof.
  split; [reflexivity|]. split; [reflexivity|]. split; [reflexivity|].
  intros Hfree. unfold resetCounter. rewrite Hfree.
  do 5 (rewrite isValid_answers_cons, isValid_acquired by reflexivity;
        cbn [fst snd count_ shutdown_ mu_]).
  reflexivity.
Qed.

Lemma resetCounter_restores_fresh_witness :
  isValid_answers 1%nat 5
    (resetCounter {| mu_ := Free; count_ := 4294967295; shutdown_ := false |})
  = [true; true; true; true; false].
Proof.
  apply (resetCounter_restores_fresh 1%nat
           {| mu_ := Free; count_ := 4294967295; shutdown_ := false |}).
  reflexivity.
Defined.

End LivenessCounter.

(** ** Sessions *)

Section Session.
Import Mutex BDV_Server_Object.

(** With or without a callback, [resetCounter] returns. *)
Lemma resetCounter_returns (s : state) :
  exists s', resetCounter s = Done s' /\ getID s' = getID s.
Proof.
  unfold resetCounter. destruct (cb_ s) as [cb|] eqn:Hcb.
  - rewrite bool_decide_eq_true_2 by eauto. eexists. split; reflexivity.
  - rewrite bool_decide_eq_false_2 by (intros [? ?]; discriminate). eauto.
Qed.

(** Claim C10.  On a session without callback ([cb_] is null),
    [BDV_Server_Object::resetCounter()] returns having changed nothing:
    the null test comes first and the pointer is not dereferenced. *)
Theorem resetCounter_null_callback (s : state) :
  cb_ s = None ->
  resetCounter s = Done s /\ resetCounter s <> Faulted NullDereference.
Proof.
  intros Hnull. unfold resetCounter. rewrite Hnull.
  rewrite bool_decide_eq_false_2 by (intros [? ?]; discriminate).
  split; [reflexivity | discriminate].
Qed.

Lemma resetCounter_null_callback_witness :
  resetCounter (BDV_Server_Object ∅ "bdv0")
    = Done (BDV_Server_Object ∅ "bdv0").
Proof.
  apply (resetCounter_null_callback (BDV_Server_Object ∅ "bdv0")).
  reflexivity.
Defined.

End Session.

(** ** The threads started by the constructor of [Clients] *)

Section ControlThreads.
Import Clients.

Lemma innerThreadCount_two bdmT hw : innerThreadCount bdmT hw = 2%Z.
Proof. reflexivity. Qed.

(** Whatever the database type, the node type and the machine, the
    constructor starts two inner maintenance threads. *)
Lemma Clients_inner_threads bdmT hw :
  threads_of innerthread (Clients bdmT hw) = 2%nat.
Proof.
  unfold threads_of, Clients. rewrite innerThreadCount_two.
  cbn [controlThreads_].
  destruct (bool_decide (nodeType_ bdmT = Node_UnitTest)); reflexivity.
Qed.

(** Claim C2, at a supernode database with a production node on a
    machine of eight hardware threads: the specification asks for eight
    inner maintenance threads, the constructor starts two. *)
Theorem Clients_supernode_inner_threads :
  let bdmT := {| getDbType := ARMORY_DB_SUPER; nodeType_ := Node_BTC |} in
  innerThreadCount_spec bdmT 8 = 8%Z /\
  innerThreadCount bdmT 8 = 2%Z /\
  threads_of innerthread (Clients bdmT 8) = 2%nat.
Proof.
  intros bdmT. split; [reflexivity|]. split; [reflexivity|].
  apply Clients_inner_threads.
Qed.


End ControlThreads.

(** ** Command dispatch and wallet registration *)

Section Commands.
Import Mutex BDV_Server_Object.










End Commands.

(** ** The registry *)

Section Registry.
Import Mutex Clients.

Variable buildMethodMap : gmap string BDV_Server_Object.handler.
Variable newID : gset string -> string.

(** The id generator hands out new ids. *)
Hypothesis newID_fresh : forall issued, newID issued ∉ issued.

Local Abbreviation registerBDV := (registerBDV buildMethodMap newID).
Local Abbreviation exec := (exec buildMethodMap newID).
Local Abbreviation run := (run buildMethodMap newID).
Local Abbreviation keeps := (keeps buildMethodMap newID).

(** The collector drops a session exactly when its callback answers
    [false] to the probe. *)
Lemma gc_keep_None gc bdv :
  gc_keep gc bdv = None <->
  exists cb, BDV_Server_Object.cb_ bdv = Some cb /\
             fst (SocketCallback.isValid gc cb) = false.
Proof.
  unfold gc_keep, gc_probe.
  destruct (BDV_Server_Object.cb_ bdv) as [cb|].
  - destruct (SocketCallback.isValid gc cb) as [[|] cb'] eqn:Hprobe.
    + split; [discriminate|].
      intros (cb0 & Hcb & Hdead). injection Hcb as <-.
      rewrite Hprobe in Hdead. discriminate.
    + split; [|reflexivity].
      intros _. exists cb. rewrite Hprobe. split; reflexivity.
  - split; [discriminate | intros (? & ? & _); discriminate].
Qed.

Lemma issued_exec o st X : X ∈ issued_ st -> X ∈ issued_ (exec o st).
Proof.
  destruct o as [|id|gc|id f]; cbn; intros HX.
  - set_solver.
  - unfold unregisterBDV. destruct (BDVs_ st !! id); exact HX.
  - exact HX.
  - exact HX.
Qed.

Lemma issued_run ops st X : X ∈ issued_ st -> X ∈ issued_ (run ops st).
Proof.
  revert st. induction ops as [|o ops IH]; intros st HX; cbn; [exact HX|].
  apply IH, issued_exec, HX.
Qed.

Lemma get_unregisterBDV id X st :
  get X (unregisterBDV id st) = if decide (id = X) then None else get X st.
Proof.
  unfold get, unregisterBDV. destruct (BDVs_ st !! id) eqn:Hid; cbn.
  - destruct (decide (id = X)) as [->|Hne].
    + apply lookup_delete_eq.
    + apply lookup_delete_ne, Hne.
  - destruct (decide (id = X)) as [->|Hne]; [exact Hid | reflexivity].
Qed.

Lemma get_garbageCollect gc X st :
  get X (garbageCollect gc st) = get X st ≫= gc_keep gc.
Proof. unfold get, garbageCollect. cbn. apply lookup_omap. Qed.

(** An operation that does not take [X] out leaves it in. *)
Lemma exec_keeps_present o st X :
  X ∈ issued_ st -> ~ removes X o st ->
  is_Some (get X st) -> is_Some (get X (exec o st)).
Proof.
  intros Hissued Hkeep [bdv Hget].
  destruct o as [|id|gc|id f]; cbn in *.
  - unfold get in *. cbn. rewrite lookup_insert_ne; [eauto|].
    intros Heq. apply (newID_fresh (issued_ st)). rewrite Heq. exact Hissued.
  - rewrite get_unregisterBDV. rewrite decide_False by exact Hkeep. eauto.
  - rewrite get_garbageCollect, Hget. cbn.
    destruct (gc_keep gc bdv) eqn:Hgc; [eauto|].
    exfalso. apply Hkeep. eauto.
  - unfold get, onSession in *. cbn. rewrite lookup_alter.
    destruct (decide (id = X)) as [->|_]; rewrite Hget; cbn; eauto.
Qed.

(** An id that was handed out and is no longer registered never comes
    back. *)
Lemma exec_keeps_absent o st X :
  X ∈ issued_ st -> get X st = None -> get X (exec o st) = None.
Proof.
  intros Hissued Hget.
  destruct o as [|id|gc|id f]; cbn in *.
  - unfold get in *. cbn. rewrite lookup_insert_ne; [exact Hget|].
    intros Heq. apply (newID_fresh (issued_ st)). rewrite Heq. exact Hissued.
  - rewrite get_unregisterBDV. destruct (decide (id = X)); [reflexivity|].
    exact Hget.
  - rewrite get_garbageCollect, Hget. reflexivity.
  - unfold get, onSession in *. cbn. rewrite lookup_alter.
    destruct (decide (id = X)) as [->|_]; rewrite Hget; reflexivity.
Qed.

Lemma run_keeps_present ops st X :
  X ∈ issued_ st -> keeps X ops st ->
  is_Some (get X st) -> is_Some (get X (run ops st)).
Proof.
  revert st. induction ops as [|o ops IH]; intros st Hissued Hkeeps Hget.
  - exact Hget.
  - destruct Hkeeps as [Hkeep Hrest]. cbn. apply IH.
    + apply issued_exec, Hissued.
    + exact Hrest.
    + apply exec_keeps_present; assumption.
Qed.

Lemma run_keeps_absent ops st X :
  X ∈ issued_ st -> get X st = None -> get X (run ops st) = None.
Proof.
  revert st. induction ops as [|o ops IH]; intros st Hissued Hget.
  - exact Hget.
  - cbn. apply IH; [apply issued_exec, Hissued|].
    apply exec_keeps_absent; assumption.
Qed.

Lemma removes_absent o st X : removes X o st -> get X (exec o st) = None.
Proof.
  destruct o as [|id|gc|id f]; cbn; try contradiction.
  - intros ->. rewrite get_unregisterBDV, decide_True; reflexivity.
  - intros (bdv & Hget & Hdead).
    rewrite get_garbageCollect, Hget. exact Hdead.
Qed.

(** Claim C3.  Let [registerBDV] return the id [X].  Then [get(X)]
    returns the session just constructed, whose id is [X]; [get(X)]
    keeps returning a session through any operations on the registry
    (registrations, removals of other ids, collector cycles, work on
    sessions), as long as none of them is [unregisterBDV(X)] or a
    collector cycle that finds the callback of [X] dead; and once such an
    operation has run, [get(X)] reports the session absent, then and
    after any further operations. *)
Theorem registerBDV_get_until_removed (st : state) :
  let X := fst (registerBDV st) in
  let st1 := snd (registerBDV st) in
  get X st1 = Some (BDV_Server_Object.BDV_Server_Object buildMethodMap X) /\
  (forall bdv, get X st1 = Some bdv -> BDV_Server_Object.getID bdv = X) /\
  (forall ops, keeps X ops st1 -> is_Some (get X (run ops st1))) /\
  (forall ops o later,
     keeps X ops st1 -> removes X o (run ops st1) ->
     get X (exec o (run ops st1)) = None /\
     get X (run later (exec o (run ops st1))) = None).
Proof.
  intros X st1.
  assert (Hget : get X st1
            = Some (BDV_Server_Object.BDV_Server_Object buildMethodMap X)).
  { unfold get, st1, X. cbn. apply lookup_insert_eq. }
  assert (Hissued : X ∈ issued_ st1).
  { unfold st1, X. cbn. set_solver. }
  split; [exact Hget|]. split.
  { intros bdv Hbdv. rewrite Hget in Hbdv. injection Hbdv as <-. reflexivity. }
  split.
  - intros ops Hkeeps. apply run_keeps_present; [exact Hissued|exact Hkeeps|].
    rewrite Hget. eauto.
  - intros ops o later Hkeeps Hremoves.
    pose proof (removes_absent _ _ _ Hremoves) as Hgone.
    split; [exact Hgone|].
    apply run_keeps_absent; [|exact Hgone].
    apply issued_exec, issued_run, Hissued.
Qed.

End Registry.

Lemma registerBDV_get_until_removed_witness :
  let X := fst (Clients.registerBDV ∅ fresh Examples.fullNode) in
  Clients.get X (snd (Clients.registerBDV ∅ fresh Examples.fullNode))
    = Some (BDV_Server_Object.BDV_Server_Object ∅ X).
Proof.
  intros X.
  apply (registerBDV_get_until_removed ∅ fresh is_fresh Examples.fullNode).
Defined.

(** ** Shutdown *)

Section Shutdown.
Import Mutex Clients.

Lemma unregisterBDV_frame id st :
  run_ (unregisterBDV id st) = run_ st /\
  controlThreads_ (unregisterBDV id st) = controlThreads_ st /\
  fcgiShutdownCalls_ (unregisterBDV id st) = fcgiShutdownCalls_ st.
Proof.
  unfold unregisterBDV. destruct (BDVs_ st !! id); repeat split.
Qed.

Lemma unregister_list_frame l st :
  run_ (foldr unregisterBDV st l) = run_ st /\
  controlThreads_ (foldr unregisterBDV st l) = controlThreads_ st /\
  fcgiShutdownCalls_ (foldr unregisterBDV st l) = fcgiShutdownCalls_ st.
Proof.
  induction l as [|id l (IHr & IHt & IHc)]; [repeat split|].
  cbn [foldr].
  destruct (unregisterBDV_frame id (foldr unregisterBDV st l))
    as (Hr & Ht & Hc).
  rewrite Hr, Ht, Hc. repeat split; assumption.
Qed.

Lemma unregister_list_get l st X :
  get X (foldr unregisterBDV st l)
    = if decide (X ∈ l) then None else get X st.
Proof.
  induction l as [|id l IH]; cbn [foldr].
  - rewrite decide_False by (apply not_elem_of_nil). reflexivity.
  - rewrite get_unregisterBDV, IH.
    destruct (decide (id = X)) as [->|Hne].
    + rewrite decide_True by (apply elem_of_cons; auto). reflexivity.
    + destruct (decide (X ∈ l)) as [Hin|Hnin].
      * rewrite decide_True by (apply elem_of_cons; auto). reflexivity.
      * rewrite decide_False; [reflexivity|].
        intros [->|Hin]%elem_of_cons; [apply Hne; reflexivity|].
        apply Hnin, Hin.
Qed.

Lemma unregisterBDV_retired id st bdv :
  bdv ∈ retired_ st -> bdv ∈ retired_ (unregisterBDV id st).
Proof.
  unfold unregisterBDV. destruct (BDVs_ st !! id); cbn; [|auto].
  intros Hin. apply elem_of_cons. auto.
Qed.

Lemma unregister_list_retired l st X bdv :
  X ∈ l -> get X st = Some bdv ->
  BDV_Server_Object.haltThreads bdv ∈ retired_ (foldr unregisterBDV st l).
Proof.
  induction l as [|id l IH]; intros Hin Hget.
  - apply not_elem_of_nil in Hin. contradiction.
  - cbn [foldr]. destruct (decide (X ∈ l)) as [Hl|Hnl].
    + apply unregisterBDV_retired, IH; assumption.
    + apply elem_of_cons in Hin as [->|Hin]; [|contradiction].
      pose proof (unregister_list_get l st id) as Hstill.
      rewrite decide_False in Hstill by exact Hnl.
      unfold get in Hstill, Hget. rewrite Hget in Hstill.
      unfold unregisterBDV at 1.
      rewrite Hstill. cbn. apply elem_of_cons. auto.
Qed.

(** [unregisterAllBDVs] leaves the registry empty. *)
Lemma unregisterAllBDVs_empty st X : get X (unregisterAllBDVs st) = None.
Proof.
  unfold unregisterAllBDVs. rewrite unregister_list_get.
  destruct (decide (X ∈ elements (dom (BDVs_ st)))) as [|Hnin];
    [reflexivity|].
  unfold get. apply not_elem_of_dom. intros Hdom. apply Hnin.
  apply elem_of_elements, Hdom.
Qed.

(** Claim C6.  On a running orchestrator with a live control thread,
    [shutdown()] clears the run flag, which takes the orchestrator from
    Running to ShuttingDown; it joins every control thread, so that it
    ends Stopped; every session that was registered is halted and
    unregistered, and the registry is empty on return; and the shutdown
    callback has been run exactly once more than before. *)
Theorem shutdown_stops_everything (st : state) :
  run_ st = true ->
  (exists t, t ∈ controlThreads_ st /\ joinable t = true) ->
  phase_of st = Running /\
  run_ (clearRunFlag st) = false /\
  phase_of (clearRunFlag st) = ShuttingDown /\
  run_ (shutdown st) = false /\
  controlThreads_ (shutdown st) = join <$> controlThreads_ st /\
  Forall (fun t => joinable t = false) (controlThreads_ (shutdown st)) /\
  phase_of (shutdown st) = Stopped /\
  BDVs_ (shutdown st) = ∅ /\
  (forall X, get X (shutdown st) = None) /\
  (forall X bdv, get X st = Some bdv ->
     BDV_Server_Object.haltThreads bdv ∈ retired_ (shutdown st)) /\
  fcgiShutdownCalls_ (shutdown st) = S (fcgiShutdownCalls_ st).
Proof.
  intros Hrun (t & Hin & Hjoinable).
  assert (Hjoined : Forall (fun t => joinable t = false)
                      (join <$> controlThreads_ st)).
  { apply Forall_fmap, Forall_forall. intros ? _. reflexivity. }
  assert (Hempty : forall X, get X (shutdown st) = None).
  { intros X. unfold shutdown, callShutdownCallback, get. cbn.
    apply (unregisterAllBDVs_empty _ X). }
  unfold shutdown, callShutdownCallback, unregisterAllBDVs in *.
  destruct (unregister_list_frame
              (elements (dom (BDVs_ (joinControlThreads (clearRunFlag st)))))
              (joinControlThreads (clearRunFlag st))) as (Hr & Ht & Hc).
  split; [unfold phase_of; rewrite Hrun; reflexivity|].
  split; [reflexivity|].
  split.
  { unfold phase_of. cbn.
    destruct (forallb _ (controlThreads_ st)) eqn:Hall; [|reflexivity].
    rewrite forallb_forall in Hall.
    apply list_elem_of_In, Hall in Hin. rewrite Hjoinable in Hin.
    discriminate. }
  cbn [run_ controlThreads_ fcgiShutdownCalls_ set_fcgiShutdownCalls BDVs_
       retired_].
  rewrite Hr, Ht, Hc.
  split; [reflexivity|]. split; [reflexivity|]. split; [exact Hjoined|].
  split.
  { unfold phase_of. cbn [run_ controlThreads_ set_fcgiShutdownCalls].
    rewrite Hr, Ht. cbn.
    replace (forallb _ _) with true; [reflexivity|].
    symmetry. apply forallb_forall. intros x Hx.
    apply list_elem_of_In, list_elem_of_fmap in Hx as (y & -> & _).
    reflexivity. }
  split; [apply map_empty; intros X; apply (Hempty X)|].
  split; [exact Hempty|].
  split; [|reflexivity].
  intros X bdv Hget.
  apply (unregister_list_retired _ _ X); [|exact Hget].
  apply elem_of_elements, elem_of_dom. cbn. unfold get in Hget.
  rewrite Hget. eauto.
Qed.

Lemma shutdown_stops_everything_witness :
  size (BDVs_ Examples.fiveSessions) = 5%nat /\
  BDVs_ (shutdown Examples.fiveSessions) = ∅ /\
  phase_of (shutdown Examples.fiveSessions) = Stopped /\
  fcgiShutdownCalls_ (shutdown Examples.fiveSessions) = 1%nat.
Proof.
  assert (Hrun : run_ Examples.fiveSessions = true) by reflexivity.
  assert (Hlive : exists t, t ∈ controlThreads_ Examples.fiveSessions /\
                            joinable t = true).
  { exists (spawn mainthread). split; [apply list_elem_of_here | reflexivity]. }
  destruct (shutdown_stops_everything Examples.fiveSessions Hrun Hlive)
    as (_ & _ & _ & _ & _ & _ & Hstopped & Hempty & _ & _ & Hcalls).
  split; [vm_compute; reflexivity|].
  split; [exact Hempty|]. split; [exact Hstopped | exact Hcalls].
Defined.

End Shutdown.

(** ** The destructor of the callback *)

(** The example destruction, configuration by configuration. *)
Lemma dtorLocked_reachable : SocketCallback.reachable 1 Examples.dtorLocked.
Proof.
  assert (Hentered : SocketCallback.reachable 1 Examples.dtorEntered).
  { apply SocketCallback.reach_entry. split; [reflexivity | discriminate]. }
  assert (Hsignalled : SocketCallback.reachable 1 Examples.dtorSignalled).
  { apply (SocketCallback.reach_step 1 _ _ Hentered).
    apply SocketCallback.step_dtor. reflexivity. }
  assert (Hgone : SocketCallback.reachable 1 Examples.responderGone).
  { apply (SocketCallback.reach_step 1 _ _ Hsignalled).
    apply (SocketCallback.step_responder 1 7 SocketCallback.Release);
      [discriminate | reflexivity]. }
  apply (SocketCallback.reach_step 1 _ _ Hgone).
  apply SocketCallback.step_dtor. reflexivity.
Qed.

Lemma lateProbe_reachable : SocketCallback.reachable 1 Examples.lateProbe.
Proof.
  assert (Hreleased : SocketCallback.reachable 1 Examples.dtorReleased).
  { apply (SocketCallback.reach_step 1 _ _ dtorLocked_reachable).
    apply SocketCallback.step_dtor. reflexivity. }
  apply (SocketCallback.reach_step 1 _ _ Hreleased).
  apply (SocketCallback.step_responder 1 9 SocketCallback.Acquire);
    [discriminate | reflexivity].
Qed.

Lemma destroyedUnderProbe_reachable :
  SocketCallback.reachable 1 Examples.destroyedUnderProbe.
Proof.
  apply (SocketCallback.reach_step 1 _ _ lateProbe_reachable).
  apply SocketCallback.step_dtor. reflexivity.
Qed.

Section Destruction.
Import Mutex SocketCallback.

Variable d : thread.

Local Abbreviation dtor_inv := (dtor_inv d).

Lemma dtor_inv_entry c : dtor_entry d c -> dtor_inv c.
Proof.
  intros [Hpc Hmu]. split; [split|]; rewrite Hpc; try discriminate.
  - intros Hheld. contradiction.
  - intros Hne. contradiction.
Qed.

Lemma held_by_true t m : held_by t m = true -> m = HeldBy t.
Proof. unfold held_by. apply bool_decide_eq_true_1. Qed.

Lemma dtor_step_inv c c' : dtor_inv c -> dtor_step d c = Some c' -> dtor_inv c'.
Proof.
  intros [Hmu Hsd]. unfold dtor_step.
  destruct (pc c) eqn:Hpc.
  - intros [= <-]. split; cbn; [|reflexivity].
    rewrite <- Hmu. split; discriminate.
  - destruct (mu_ (obj c)) eqn:Hm; cbn; [|discriminate].
    intros [= <-]. split; cbn; [split; reflexivity|].
    intros _. apply Hsd. discriminate.
  - intros [= <-]. split; cbn.
    + rewrite (proj1 Hmu eq_refl). cbn. rewrite decide_True by reflexivity.
      split; discriminate.
    + intros _. apply Hsd. discriminate.
  - intros [= <-]. split; cbn.
    + rewrite <- Hmu. split; discriminate.
    + intros _. apply Hsd. discriminate.
  - discriminate.
Qed.

Lemma responder_step_inv t a c c' :
  t <> d -> dtor_inv c -> responder_step t a c = Some c' -> dtor_inv c'.
Proof.
  intros Hne [Hmu Hsd]. unfold responder_step.
  destruct a as [|v|].
  - destruct (mu_ (obj c)) eqn:Hm; cbn; [|discriminate].
    intros [= <-]. split; cbn; [|exact Hsd].
    rewrite Hmu. split; [discriminate|]. intros [= Heq]. contradiction.
  - destruct (held_by t (mu_ (obj c))); [|discriminate].
    intros [= <-]. split; cbn; assumption.
  - destruct (held_by t (mu_ (obj c))) eqn:Hheld; [|discriminate].
    apply held_by_true in Hheld.
    intros [= <-]. split; cbn; [|exact Hsd].
    rewrite Hheld. cbn. rewrite decide_True by reflexivity.
    rewrite Hmu, Hheld. split; [intros [= Heq]; contradiction|discriminate].
Qed.

Lemma reachable_inv c : reachable d c -> dtor_inv c.
Proof.
  induction 1 as [c Hentry|c c' _ IH Hstep].
  - apply dtor_inv_entry, Hentry.
  - destruct Hstep as [c c' Hd|t a c c' Hne Hr].
    + eapply dtor_step_inv; eassumption.
    + eapply responder_step_inv; eassumption.
Qed.

Lemma responder_step_pc t a c c' :
  responder_step t a c = Some c' -> pc c' = pc c.
Proof.
  unfold responder_step. destruct a.
  - destruct (try_lock t (mu_ (obj c))) as [[|] m]; [|discriminate].
    intros [= <-]. reflexivity.
  - destruct (held_by t (mu_ (obj c))); [|discriminate].
    intros [= <-]. reflexivity.
  - destruct (held_by t (mu_ (obj c))); [|discriminate].
    intros [= <-]. reflexivity.
Qed.

Lemma not_responder_holds_dtor c :
  mu_ (obj c) = HeldBy d -> ~ responder_holds d c.
Proof.
  intros Hheld (t & Hne & Ht). rewrite Hheld in Ht. injection Ht as Heq.
  apply Hne. symmetry. exact Heq.
Qed.

(** A destruction that has passed the closing brace of the destructor
    went through a configuration in which the destructor held the probe
    lock. *)
Lemma reachable_passed_lock c :
  reachable d c ->
  pc c = LockReleased \/ pc c = Destroyed ->
  exists c0, reachable d c0 /\ pc c0 = HoldingLock /\ rtc (step d) c0 c.
Proof.
  induction 1 as [c [Hpc _]|c c' Hreach IH Hstep]; intros Hpast.
  - rewrite Hpc in Hpast. destruct Hpast; discriminate.
  - destruct (decide (pc c = HoldingLock)) as [Hhold|Hnot].
    { exists c. split; [exact Hreach|]. split; [exact Hhold|].
      apply rtc_once, Hstep. }
    destruct IH as (c0 & Hr0 & Hpc0 & Hrun).
    + destruct Hstep as [c c' Hd|t a c c' Hne Hr].
      * unfold dtor_step in Hd. destruct (pc c) eqn:Hpc.
        -- injection Hd as <-. destruct Hpast; discriminate.
        -- destruct (lock d (mu_ (obj c))); [|discriminate].
           injection Hd as <-. destruct Hpast; discriminate.
        -- contradiction.
        -- left. reflexivity.
        -- discriminate.
      * apply responder_step_pc in Hr. rewrite Hr in Hpast. exact Hpast.
    + exists c0. split; [exact Hr0|]. split; [exact Hpc0|].
      eapply rtc_r; eassumption.
Qed.

(** Claim C9 read literally fails: the destructor releases the probe
    lock at its closing brace, before the destruction ends.  In the run
    below, destructor thread 1 finds responder 7 in flight, signals
    shutdown, waits, takes the lock once 7 has left and releases it;
    thread 9 then enters [isValid()] and takes the lock; the destruction
    ends while thread 9 holds the probe lock. *)
Lemma destruction_ends_while_probe_lock_held :
  reachable 1 Examples.lateProbe /\
  step 1 Examples.lateProbe Examples.destroyedUnderProbe /\
  pc Examples.lateProbe <> Destroyed /\
  pc Examples.destroyedUnderProbe = Destroyed /\
  responder_holds 1 Examples.lateProbe /\
  responder_holds 1 Examples.destroyedUnderProbe.
Proof.
  split; [exact lateProbe_reachable|].
  split; [apply step_dtor; reflexivity|].
  split; [discriminate|]. split; [reflexivity|].
  split; exists 9%nat; (split; [discriminate | reflexivity]).
Qed.

(** Claim C9, amended to the responders in flight.  In every
    interleaving of the destructor (run by thread [d]) with other
    threads that take and release the probe lock: the first action of
    the destructor is the shutdown signal, which leaves the lock alone;
    after it the destructor takes the lock as soon as it is free and
    cannot move while a responder holds it; while the destructor holds
    the lock the shutdown has been signalled and no responder holds the
    lock; and a destruction that has passed the closing brace went
    through such a configuration.  So every responder that held the
    probe lock when the destructor came to its [lock] has released it
    before the destruction ends. *)
Theorem destructor_waits_for_responders (c : conf) :
  reachable d c ->
  (pc c = AtEntry ->
     dtor_step d c
       = Some {| obj := Callback_shutdown (obj c); pc := ShutdownSignalled |} /\
     mu_ (Callback_shutdown (obj c)) = mu_ (obj c)) /\
  (pc c = ShutdownSignalled ->
     shutdown_ (obj c) = true /\
     (responder_holds d c -> dtor_step d c = None) /\
     (mu_ (obj c) = Free ->
        dtor_step d c
          = Some {| obj := {| mu_ := HeldBy d; count_ := count_ (obj c);
                              shutdown_ := shutdown_ (obj c) |};
                    pc := HoldingLock |})) /\
  (pc c = HoldingLock ->
     shutdown_ (obj c) = true /\ mu_ (obj c) = HeldBy d /\
     ~ responder_holds d c /\
     dtor_step d c
       = Some {| obj := {| mu_ := Free; count_ := count_ (obj c);
                           shutdown_ := shutdown_ (obj c) |};
                 pc := LockReleased |}) /\
  (pc c = LockReleased \/ pc c = Destroyed ->
     shutdown_ (obj c) = true /\
     exists c0, reachable d c0 /\ pc c0 = HoldingLock /\
                shutdown_ (obj c0) = true /\ ~ responder_holds d c0 /\
                rtc (step d) c0 c).
Proof.
  intros Hreach. pose proof (reachable_inv c Hreach) as [Hmu Hsd].
  split; [|split; [|split]].
  - intros Hpc. unfold dtor_step. rewrite Hpc. split; reflexivity.
  - intros Hpc. split; [apply Hsd; rewrite Hpc; discriminate|]. split.
    + intros (t & Hne & Hheld). unfold dtor_step.
      rewrite Hpc, Hheld. reflexivity.
    + intros Hfree. unfold dtor_step. rewrite Hpc, Hfree. reflexivity.
  - intros Hpc. pose proof (proj1 Hmu Hpc) as Hheld.
    split; [apply Hsd; rewrite Hpc; discriminate|].
    split; [exact Hheld|].
    split; [apply not_responder_holds_dtor, Hheld|].
    unfold dtor_step. rewrite Hpc, Hheld. cbn.
    rewrite decide_True by reflexivity. reflexivity.
  - intros Hpast.
    split; [apply Hsd; destruct Hpast as [Hp|Hp]; rewrite Hp; discriminate|].
    destruct (reachable_passed_lock c Hreach Hpast) as (c0 & Hr0 & Hpc0 & Hrun).
    pose proof (reachable_inv c0 Hr0) as [Hmu0 Hsd0].
    exists c0. split; [exact Hr0|]. split; [exact Hpc0|].
    split; [apply Hsd0; rewrite Hpc0; discriminate|].
    split; [apply not_responder_holds_dtor, Hmu0, Hpc0 | exact Hrun].
Qed.

End Destruction.

Lemma destructor_waits_for_responders_witness :
  SocketCallback.dtor_step 1 Examples.dtorSignalled = None /\
  ~ SocketCallback.responder_holds 1 Examples.dtorLocked /\
  exists c0, SocketCallback.reachable 1 c0 /\
             SocketCallback.pc c0 = SocketCallback.HoldingLock /\
             ~ SocketCallback.responder_holds 1 c0 /\
             rtc (SocketCallback.step 1) c0 Examples.destroyedUnderProbe.
Proof.
  pose proof destroyedUnderProbe_reachable as Hdestroyed.
  pose proof dtorLocked_reachable as Hlocked.
  assert (Hentered : SocketCallback.reachable 1 Examples.dtorEntered).
  { apply SocketCallback.reach_entry. split; [reflexivity | discriminate]. }
  assert (Hsignalled : SocketCallback.reachable 1 Examples.dtorSignalled).
  { apply (SocketCallback.reach_step 1 _ _ Hentered).
    apply SocketCallback.step_dtor. reflexivity. }
  split; [|split].
  - destruct (destructor_waits_for_responders 1 Examples.dtorSignalled
                Hsignalled) as (_ & Hwait & _).
    destruct (Hwait eq_refl) as (_ & Hblocked & _). apply Hblocked.
    exists 7%nat. split; [discriminate | reflexivity].
  - destruct (destructor_waits_for_responders 1 Examples.dtorLocked
                Hlocked) as (_ & _ & Hhold & _).
    destruct (Hhold eq_refl) as (_ & _ & Hnone & _). exact Hnone.
  - destruct (destructor_waits_for_responders 1
                Examples.destroyedUnderProbe Hdestroyed)
      as (_ & _ & _ & Hpast).
    destruct (Hpast (or_intror eq_refl))
      as (_ & c0 & Hr0 & Hpc0 & _ & Hnone & Hrun).
    exists c0. auto.
Defined.

(* ================================================================== *)
(** * Further properties of the inline members *)

(** ** Probes and resets *)

Section Probes.
Import Mutex SocketCallback History.

Local Open Scope Z_scope.

(** [isValid()] gives the probe lock back on both of its return paths,
    never touches the shutdown flag, and moves the counter only when it
    got the lock. *)
Theorem isValid_releases_probe_lock (self : thread) (cb : state) :
  mu_ (snd (isValid self cb)) = mu_ cb /\
  shutdown_ (snd (isValid self cb)) = shutdown_ cb /\
  count_ (snd (isValid self cb)) =
    (if bool_decide (mu_ cb = Free) then Unsigned.wrap (count_ cb + 1)
     else count_ cb).
Proof.
  destruct (mu_ cb) as [|t] eqn:Hmu.
  - rewrite isValid_acquired by exact Hmu. cbn. auto.
  - rewrite (isValid_contended self t) by exact Hmu. cbn. auto.
Qed.

(** The counter does not saturate.  With the lock free, [n] calls of
    [isValid()] leave the counter at its old value plus [n], modulo
    [2^32], whatever it was; so [2^32] calls bring a callback whose
    counter is a 32-bit value back to the state it was in. *)
Theorem isValid_counts_modulo (self : thread) (n : N) (cb : state) :
  mu_ cb = Free ->
  isValid_times self n cb =
    (if decide (n = 0%N) then cb
     else {| mu_ := Free; count_ := Unsigned.wrap (count_ cb + Z.of_N n);
             shutdown_ := shutdown_ cb |}) /\
  (Unsigned.in_range (count_ cb) ->
   isValid_times self 4294967296 cb = cb).
Proof.
  intros Hfree.
  assert (Hn : forall m : N,
            isValid_times self (N.succ m) cb =
              {| mu_ := Free;
                 count_ := Unsigned.wrap (count_ cb + Z.of_N (N.succ m));
                 shutdown_ := shutdown_ cb |}).
  { intros m. unfold isValid_times.
    induction m as [|m IH] using N.peano_ind.
    - rewrite N.iter_succ. cbn [N.iter].
      rewrite isValid_acquired by exact Hfree. reflexivity.
    - rewrite N.iter_succ, IH, isValid_acquired by reflexivity.
      cbn [snd count_ shutdown_]. rewrite wrap_succ.
      rewrite (N2Z.inj_succ (N.succ m)).
      replace (count_ cb + Z.of_N (N.succ m) + 1)
        with (count_ cb + Z.succ (Z.of_N (N.succ m))) by lia.
      reflexivity. }
  split.
  - destruct (decide (n = 0%N)) as [->|Hpos]; [reflexivity|].
    rewrite <- (N.succ_pred n) by exact Hpos. apply Hn.
  - intros Hrange. change 4294967296%N with (N.succ 4294967295).
    rewrite Hn. destruct cb as [m c sd]. cbn in *. subst m.
    f_equal. unfold Unsigned.wrap.
    change (Z.of_N (N.succ 4294967295)) with (1 * Unsigned.modulus).
    rewrite Z_mod_plus_full. apply Z.mod_small, Hrange.
Qed.

Lemma isValid_counts_modulo_witness :
  isValid_times 0%nat 4294967296
    {| mu_ := Free; count_ := 3; shutdown_ := false |}
  = {| mu_ := Free; count_ := 3; shutdown_ := false |}.
Proof.
  apply (isValid_counts_modulo 0%nat 4294967296
           {| mu_ := Free; count_ := 3; shutdown_ := false |});
    [reflexivity|].
  unfold Unsigned.in_range. cbn. rewrite modulus_value. lia.
Defined.

(** While another thread keeps the probe lock, no number of calls of
    [isValid()] expires the callback or changes it. *)
Theorem isValid_contended_never_expires (self t : thread) (n : nat)
    (cb : state) :
  mu_ cb = HeldBy t ->
  isValid_answers self n cb = replicate n true /\
  isValid_times self (N.of_nat n) cb = cb.
Proof.
  intros Hheld. split.
  - induction n as [|n IH]; [reflexivity|].
    rewrite isValid_answers_cons, (isValid_contended self t) by exact Hheld.
    cbn [fst snd replicate]. rewrite IH. reflexivity.
  - unfold isValid_times. induction n as [|n IH]; [reflexivity|].
    rewrite Nat2N.inj_succ, N.iter_succ, IH.
    rewrite (isValid_contended self t) by exact Hheld. reflexivity.
Qed.

Lemma isValid_contended_never_expires_witness :
  isValid_answers 0%nat 9
    {| mu_ := HeldBy 7%nat; count_ := 4; shutdown_ := false |}
  = replicate 9 true.
Proof.
  apply (isValid_contended_never_expires 0%nat 7%nat 9
           {| mu_ := HeldBy 7%nat; count_ := 4; shutdown_ := false |}).
  reflexivity.
Defined.

(** A callback whose counter is [c <= 4] has [4 - c] probes left: with
    the lock free, the next [4 - c] calls of [isValid()] answer [true]
    and the one after answers [false]. *)
Theorem isValid_remaining_probes (self : thread) (cb : state) :
  mu_ cb = Free -> 0 <= count_ cb <= 4 ->
  isValid_answers self (Z.to_nat (5 - count_ cb)) cb
    = replicate (Z.to_nat (4 - count_ cb)) true ++ [false].
Proof.
  intros Hfree Hc.
  remember (Z.to_nat (4 - count_ cb)) as m eqn:Hm.
  replace (Z.to_nat (5 - count_ cb)) with (S m) by lia.
  revert cb Hfree Hc Hm. induction m as [|m IH]; intros cb Hfree Hc Hm.
  - assert (Hfour : count_ cb = 4) by lia.
    rewrite isValid_answers_cons, isValid_acquired by exact Hfree.
    rewrite Hfour. reflexivity.
  - rewrite isValid_answers_cons, isValid_acquired by exact Hfree.
    assert (Hnext : Unsigned.wrap (count_ cb + 1) = count_ cb + 1)
      by (apply wrap_small; unfold Unsigned.in_range;
          rewrite modulus_value; lia).
    rewrite Hnext. cbn [fst snd].
    rewrite IH; cbn [mu_ count_]; [|reflexivity|lia|lia].
    replace (CALLBACK_EXPIRE_COUNT <=? count_ cb + 1) with false.
    + reflexivity.
    + symmetry. apply Z.leb_gt. unfold CALLBACK_EXPIRE_COUNT. lia.
Qed.

Lemma isValid_remaining_probes_witness :
  isValid_answers 0%nat 3
    {| mu_ := Free; count_ := 2; shutdown_ := false |}
  = [true; true; false].
Proof.
  apply (isValid_remaining_probes 0%nat
           {| mu_ := Free; count_ := 2; shutdown_ := false |});
    [reflexivity | cbn; lia].
Defined.

(** An expired callback stays expired: once the counter has reached
    [4], every further lock-acquiring call of [isValid()] answers
    [false], as long as the counter does not wrap. *)
Theorem isValid_stays_expired (self : thread) (n : nat) (cb : state) :
  mu_ cb = Free -> 4 <= count_ cb ->
  count_ cb + Z.of_nat n < Unsigned.modulus ->
  isValid_answers self n cb = replicate n false.
Proof.
  revert cb. induction n as [|n IH]; intros cb Hfree Hc Hn; [reflexivity|].
  rewrite isValid_answers_cons, isValid_acquired by exact Hfree.
  assert (Hnext : Unsigned.wrap (count_ cb + 1) = count_ cb + 1)
    by (apply wrap_small; unfold Unsigned.in_range; lia).
  rewrite Hnext. cbn [fst snd replicate].
  rewrite IH; cbn [mu_ count_]; [|reflexivity|lia|lia].
  replace (CALLBACK_EXPIRE_COUNT <=? count_ cb + 1) with true.
  - reflexivity.
  - symmetry. apply Z.leb_le. unfold CALLBACK_EXPIRE_COUNT. lia.
Qed.

Lemma isValid_stays_expired_witness :
  isValid_answers 0%nat 6
    {| mu_ := Free; count_ := 4; shutdown_ := false |}
  = replicate 6 false.
Proof.
  apply (isValid_stays_expired 0%nat 6
           {| mu_ := Free; count_ := 4; shutdown_ := false |});
    [reflexivity | cbn; lia | reflexivity].
Defined.

(** With [k <= 4] lock-acquiring probes already counted, the answers
    along a history are all [true] exactly when the count never comes
    to five. *)
Lemma answers_within_budget (self : thread) (evs : list event)
    (k : nat) (cb : state) :
  count_ cb = Z.of_nat k -> (k <= 4)%nat ->
  forallb id (answers self evs cb) = within_budget k evs.
Proof.
  revert k cb. induction evs as [|ev evs IH]; intros k cb Hk Hle;
    [reflexivity|].
  destruct ev as [[t|]|]; cbn [answers within_budget].
  - rewrite (isValid_contended self t) by reflexivity.
    cbn [forallb id andb]. apply IH; [exact Hk | exact Hle].
  - rewrite isValid_acquired by reflexivity. cbn [count_ with_lock].
    assert (Hnext : Unsigned.wrap (count_ cb + 1) = Z.of_nat (S k))
      by (rewrite wrap_small;
          [lia | unfold Unsigned.in_range; rewrite modulus_value; lia]).
    rewrite Hnext. cbn [forallb id].
    destruct (decide (S k < Z.to_nat CALLBACK_EXPIRE_COUNT)%nat) as [Hlt|Hge].
    + rewrite bool_decide_eq_true_2 by exact Hlt.
      replace (CALLBACK_EXPIRE_COUNT <=? Z.of_nat (S k)) with false
        by (symmetry; apply Z.leb_gt; unfold CALLBACK_EXPIRE_COUNT in *; lia).
      cbn [negb andb]. apply IH; [reflexivity|].
      unfold CALLBACK_EXPIRE_COUNT in Hlt. lia.
    + rewrite bool_decide_eq_false_2 by exact Hge.
      replace (CALLBACK_EXPIRE_COUNT <=? Z.of_nat (S k)) with true
        by (symmetry; apply Z.leb_le; unfold CALLBACK_EXPIRE_COUNT in *; lia).
      reflexivity.
  - apply IH; [reflexivity | lia].
Qed.

(** On a callback whose counter is zero (just constructed or just
    reset), along any history of probes and resets, [isValid()] answers
    [true] every time exactly when the history never has five
    lock-acquiring probes without a [resetCounter()] in between;
    contended probes do not count. *)
Theorem isValid_true_iff_reset_in_time (self : thread) (evs : list event)
    (cb : state) :
  count_ cb = 0 ->
  forallb id (answers self evs cb) = within_budget 0 evs.
Proof.
  intros Hzero. apply answers_within_budget; [exact Hzero | lia].
Qed.

Lemma isValid_true_iff_reset_in_time_witness :
  forallb id
    (answers 0%nat
       [Probe None; Probe None; Probe (Some 7%nat); Probe None; Probe None;
        Reset; Probe None]
       SocketCallback)
  = true.
Proof.
  rewrite (isValid_true_iff_reset_in_time 0%nat _ SocketCallback);
    reflexivity.
Defined.

End Probes.

(** ** [BDV_Server_Object::resetCounter] *)

Section SessionReset.
Import Mutex BDV_Server_Object.

(** On every session, [resetCounter()] returns; it changes nothing but
    the callback, and calling it again changes nothing more. *)
Theorem session_resetCounter_frame (s : state) :
  exists s',
    resetCounter s = Done s' /\
    getID s' = getID s /\
    methodMap_ s' = methodMap_ s /\
    wltRegMap_ s' = wltRegMap_ s /\
    registerWalletMutex_ s' = registerWalletMutex_ s /\
    threadsRunning_ s' = threadsRunning_ s /\
    cb_ s' = SocketCallback.resetCounter <$> cb_ s /\
    resetCounter s' = Done s'.
Proof.
  unfold resetCounter at 1. destruct (cb_ s) as [cb|] eqn:Hcb.
  - rewrite bool_decide_eq_true_2 by eauto. eexists.
    split; [reflexivity|]. cbn [mbind outcome_bind deref].
    repeat (split; [reflexivity|]).
    unfold resetCounter. cbn [cb_ set_cb].
    rewrite bool_decide_eq_true_2 by eauto. reflexivity.
  - rewrite bool_decide_eq_false_2 by (intros [? ?]; discriminate).
    exists s. split; [reflexivity|]. repeat (split; [reflexivity|]).
    rewrite Hcb. split; [reflexivity|].
    unfold resetCounter. rewrite Hcb.
    rewrite bool_decide_eq_false_2 by (intros [? ?]; discriminate).
    reflexivity.
Qed.

(** After [resetCounter()] on a session with a callback, the next call
    of [isValid()] on that callback answers [true], whoever holds the
    probe lock. *)
Theorem session_resetCounter_then_valid (self : thread) (s : state)
    (cb : SocketCallback.state) :
  cb_ s = Some cb ->
  exists s' cb',
    resetCounter s = Done s' /\
    cb_ s' = Some cb' /\
    SocketCallback.count_ cb' = 0%Z /\
    SocketCallback.mu_ cb' = SocketCallback.mu_ cb /\
    fst (SocketCallback.isValid self cb') = true.
Proof.
  intros Hcb. unfold resetCounter. rewrite Hcb.
  rewrite bool_decide_eq_true_2 by eauto.
  eexists _, _. split; [reflexivity|]. split; [reflexivity|].
  split; [reflexivity|]. split; [reflexivity|].
  destruct (SocketCallback.mu_ cb) as [|t] eqn:Hmu.
  - rewrite isValid_acquired by exact Hmu. reflexivity.
  - rewrite (isValid_contended self t) by exact Hmu. reflexivity.
Qed.

Lemma session_resetCounter_then_valid_witness :
  exists s' cb',
    resetCounter
      (set_cb (Some {| SocketCallback.mu_ := Free;
                       SocketCallback.count_ := 4;
                       SocketCallback.shutdown_ := false |})
         Examples.oneMethodSession) = Done s' /\
    cb_ s' = Some cb' /\
    fst (SocketCallback.isValid 0%nat cb') = true.
Proof.
  destruct (session_resetCounter_then_valid 0%nat
              (set_cb (Some {| SocketCallback.mu_ := Free;
                               SocketCallback.count_ := 4;
                               SocketCallback.shutdown_ := false |})
                 Examples.oneMethodSession)
              _ eq_refl) as (s' & cb' & Hcall & Hcb & _ & _ & Hvalid).
  exists s', cb'. split; [exact Hcall|]. split; [exact Hcb | exact Hvalid].
Defined.

End SessionReset.

(** ** The destructor among member calls *)

Section DestructionAmongCalls.
Import Mutex SocketCallback History.

Variable d : thread.

Lemma reachable_rtc c c' :
  reachable d c -> rtc (step d) c c' -> reachable d c'.
Proof.
  intros Hreach Hsteps. induction Hsteps as [|c c1 c2 Hstep _ IH];
    [exact Hreach|].
  apply IH. eapply reach_step; eassumption.
Qed.

(** A call of [isValid()] by a thread other than the destructor is a
    run of the interleaving semantics: nothing when the lock is taken,
    and acquire, store the incremented counter, release when it is
    free.  So the configurations reachable during a destruction are
    closed under such calls. *)
Theorem isValid_is_responder_run (t : thread) (c : conf) :
  t <> d ->
  rtc (step d) c (isValid_step t c) /\
  (reachable d c -> reachable d (isValid_step t c)).
Proof.
  intros Hne.
  assert (Hrun : rtc (step d) c (isValid_step t c)).
  { destruct c as [[m n sd] p]. unfold isValid_step. cbn [obj pc].
    destruct m as [|o].
    - rewrite isValid_acquired by reflexivity. cbn [snd count_ shutdown_].
      eapply rtc_l.
      { apply (step_responder d t Acquire); [exact Hne | reflexivity]. }
      eapply rtc_l.
      { apply (step_responder d t (Touch (n + 1))); [exact Hne|].
        unfold responder_step, held_by. cbn.
        rewrite bool_decide_eq_true_2 by reflexivity. reflexivity. }
      eapply rtc_l; [|apply rtc_refl].
      apply (step_responder d t Release); [exact Hne|].
      unfold responder_step, held_by. cbn.
      rewrite bool_decide_eq_true_2 by reflexivity.
      rewrite decide_True by reflexivity. reflexivity.
    - rewrite (isValid_contended t o) by reflexivity. apply rtc_refl. }
  split; [exact Hrun|].
  intros Hreach. eapply reachable_rtc; eassumption.
Qed.

Lemma reachable_reset_inv c : reachable_reset d c -> dtor_inv d c.
Proof.
  induction 1 as [c Hentry|c c' _ IH Hstep].
  - apply dtor_inv_entry, Hentry.
  - destruct Hstep as [c c' Hbase|c].
    + destruct Hbase as [c c' Hd|t a c c' Hne Hr].
      * eapply dtor_step_inv; eassumption.
      * eapply responder_step_inv; eassumption.
    + destruct IH as [Hmu Hsd]. split; cbn; assumption.
Qed.

Lemma step_reset_pc c c' :
  step_reset d c c' ->
  pc c' = pc c \/ dtor_step d c = Some c'.
Proof.
  intros [c0 c1 Hbase|c0].
  - destruct Hbase as [c0 c1 Hd|t a c0 c1 Hne Hr].
    + right. exact Hd.
    + left. eapply responder_step_pc, Hr.
  - left. reflexivity.
Qed.

Lemma dtor_step_past_lock c c' :
  dtor_step d c = Some c' ->
  pc c' = LockReleased \/ pc c' = Destroyed ->
  pc c = HoldingLock \/ pc c = LockReleased.
Proof.
  unfold dtor_step. destruct (pc c) eqn:Hpc.
  - intros [= <-] [H|H]; discriminate.
  - destruct (lock d (mu_ (obj c))); [|discriminate].
    intros [= <-] [H|H]; discriminate.
  - auto.
  - auto.
  - discriminate.
Qed.

Lemma reachable_reset_passed_lock c :
  reachable_reset d c ->
  pc c = LockReleased \/ pc c = Destroyed ->
  exists c0, reachable_reset d c0 /\ pc c0 = HoldingLock /\
             rtc (step_reset d) c0 c.
Proof.
  induction 1 as [c [Hpc _]|c c' Hreach IH Hstep]; intros Hpast.
  - rewrite Hpc in Hpast. destruct Hpast; discriminate.
  - destruct (decide (pc c = HoldingLock)) as [Hhold|Hnot].
    { exists c. split; [exact Hreach|]. split; [exact Hhold|].
      apply rtc_once, Hstep. }
    destruct IH as (c0 & Hr0 & Hpc0 & Hrun).
    + destruct (step_reset_pc c c' Hstep) as [Hsame|Hd].
      * rewrite Hsame in Hpast. exact Hpast.
      * destruct (dtor_step_past_lock c c' Hd Hpast) as [Hh|Hr];
          [contradiction | left; exact Hr].
    + exists c0. split; [exact Hr0|]. split; [exact Hpc0|].
      eapply rtc_r; eassumption.
Qed.

(** [resetCounter()] stores to the counter without taking the probe
    lock, so it can run at any point of a destruction.  With such calls
    added to the interleavings the destructor keeps its discipline: past
    its [lock] the shutdown has been signalled; while it holds the lock
    no responder does; while a responder holds the lock the destructor
    that has signalled shutdown stays where it is, whatever happens; and
    a destruction that has passed the closing brace went through a
    configuration in which the destructor held the lock. *)
Theorem destructor_waits_despite_resets (c : conf) :
  reachable_reset d c ->
  (pc c = HoldingLock \/ pc c = LockReleased \/ pc c = Destroyed ->
     shutdown_ (obj c) = true) /\
  (pc c = HoldingLock ->
     mu_ (obj c) = HeldBy d /\ ~ responder_holds d c) /\
  (pc c = ShutdownSignalled -> responder_holds d c ->
     forall c', step_reset d c c' -> pc c' = ShutdownSignalled) /\
  (pc c = LockReleased \/ pc c = Destroyed ->
     exists c0, reachable_reset d c0 /\ pc c0 = HoldingLock /\
                ~ responder_holds d c0 /\ rtc (step_reset d) c0 c).
Proof.
  intros Hreach. pose proof (reachable_reset_inv c Hreach) as [Hmu Hsd].
  split; [|split; [|split]].
  - intros [Hpc|[Hpc|Hpc]]; apply Hsd; rewrite Hpc; discriminate.
  - intros Hpc. pose proof (proj1 Hmu Hpc) as Hheld.
    split; [exact Hheld | apply not_responder_holds_dtor, Hheld].
  - intros Hpc (t & Hne & Hheld) c' Hstep.
    destruct (step_reset_pc c c' Hstep) as [Hsame|Hd].
    + rewrite Hsame. exact Hpc.
    + unfold dtor_step in Hd. rewrite Hpc, Hheld in Hd. discriminate.
  - intros Hpast.
    destruct (reachable_reset_passed_lock c Hreach Hpast)
      as (c0 & Hr0 & Hpc0 & Hrun).
    pose proof (reachable_reset_inv c0 Hr0) as [Hmu0 _].
    exists c0. split; [exact Hr0|]. split; [exact Hpc0|].
    split; [apply not_responder_holds_dtor, Hmu0, Hpc0 | exact Hrun].
Qed.

Lemma release_step t n sd p :
  t <> d ->
  step d {| obj := {| mu_ := HeldBy t; count_ := n; shutdown_ := sd |};
            pc := p |}
         {| obj := {| mu_ := Free; count_ := n; shutdown_ := sd |};
            pc := p |}.
Proof.
  intros Hne. apply (step_responder d t Release); [exact Hne|].
  unfold responder_step, held_by. cbn.
  rewrite bool_decide_eq_true_2 by reflexivity.
  rewrite decide_True by reflexivity. reflexivity.
Qed.

Lemma finish_from_signalled m n sd :
  m <> HeldBy d ->
  exists c',
    rtc (step d)
      {| obj := {| mu_ := m; count_ := n; shutdown_ := sd |};
         pc := ShutdownSignalled |} c' /\
    pc c' = Destroyed.
Proof.
  intros Hm.
  assert (Hfree : exists c',
            rtc (step d)
              {| obj := {| mu_ := Free; count_ := n; shutdown_ := sd |};
                 pc := ShutdownSignalled |} c' /\
            pc c' = Destroyed).
  { eexists. split.
    - eapply rtc_l; [apply step_dtor; reflexivity|].
      eapply rtc_l; [apply step_dtor; reflexivity|].
      eapply rtc_l; [apply step_dtor; reflexivity|]. apply rtc_refl.
    - reflexivity. }
  destruct m as [|t]; [exact Hfree|].
  destruct Hfree as (c' & Hrun & Hdone). exists c'. split; [|exact Hdone].
  eapply rtc_l; [|exact Hrun].
  apply release_step. intros ->. apply Hm. reflexivity.
Qed.

(** The destructor cannot be locked out for good: from every
    configuration reached during a destruction there is a run to its
    completion, in which at most the responder holding the probe lock
    releases it and the destructor does the rest. *)
Theorem destructor_can_complete (c : conf) :
  reachable d c ->
  exists c', rtc (step d) c c' /\ pc c' = Destroyed.
Proof.
  intros Hreach. pose proof (reachable_inv d c Hreach) as [Hmu _].
  destruct c as [[m n sd] p]. cbn in Hmu.
  destruct p.
  - destruct (finish_from_signalled m n true) as (c' & Hrun & Hdone).
    { intros Hm. apply Hmu in Hm. discriminate. }
    exists c'. split; [|exact Hdone].
    eapply rtc_l; [|exact Hrun]. apply step_dtor. reflexivity.
  - apply finish_from_signalled. intros Hm. apply Hmu in Hm. discriminate.
  - eexists. split.
    + eapply rtc_l; [apply step_dtor; reflexivity|].
      apply rtc_once, step_dtor. reflexivity.
    + reflexivity.
  - eexists. split.
    + apply rtc_once, step_dtor. reflexivity.
    + reflexivity.
  - eexists. split; [apply rtc_refl | reflexivity].
Qed.


End DestructionAmongCalls.

Lemma isValid_is_responder_run_witness :
  SocketCallback.reachable 1%nat (History.isValid_step 7%nat Examples.responderGone).
Proof.
  assert (Hentered : SocketCallback.reachable 1%nat Examples.dtorEntered).
  { apply SocketCallback.reach_entry. split; [reflexivity | discriminate]. }
  assert (Hsignalled : SocketCallback.reachable 1%nat Examples.dtorSignalled).
  { apply (SocketCallback.reach_step 1%nat _ _ Hentered). apply SocketCallback.step_dtor. reflexivity. }
  assert (Hgone : SocketCallback.reachable 1%nat Examples.responderGone).
  { apply (SocketCallback.reach_step 1%nat _ _ Hsignalled).
    apply (SocketCallback.step_responder 1%nat 7%nat SocketCallback.Release); [discriminate | reflexivity]. }
  apply (isValid_is_responder_run 1%nat 7%nat Examples.responderGone);
    [discriminate | exact Hgone].
Defined.

Lemma reset_during_lock_reachable :
  History.reachable_reset 1 (History.reset_step Examples.dtorLocked).
Proof.
  assert (Hentered : History.reachable_reset 1 Examples.dtorEntered).
  { apply History.reach_reset_entry. split; [reflexivity | discriminate]. }
  assert (Hsignalled : History.reachable_reset 1 Examples.dtorSignalled).
  { apply (History.reach_reset_step 1 _ _ Hentered).
    apply History.step_reset_base, SocketCallback.step_dtor. reflexivity. }
  assert (Hgone : History.reachable_reset 1 Examples.responderGone).
  { apply (History.reach_reset_step 1 _ _ Hsignalled).
    apply History.step_reset_base.
    apply (SocketCallback.step_responder 1 7 SocketCallback.Release);
      [discriminate | reflexivity]. }
  assert (Hlocked : History.reachable_reset 1 Examples.dtorLocked).
  { apply (History.reach_reset_step 1 _ _ Hgone).
    apply History.step_reset_base, SocketCallback.step_dtor. reflexivity. }
  apply (History.reach_reset_step 1 _ _ Hlocked).
  apply History.step_reset_call.
Qed.

Lemma destructor_waits_despite_resets_witness :
  SocketCallback.mu_
    (SocketCallback.obj (History.reset_step Examples.dtorLocked))
    = Mutex.HeldBy 1 /\
  ~ SocketCallback.responder_holds 1 (History.reset_step Examples.dtorLocked).
Proof.
  destruct (destructor_waits_despite_resets 1
              (History.reset_step Examples.dtorLocked)
              reset_during_lock_reachable) as (_ & Hhold & _).
  apply Hhold. reflexivity.
Defined.

Lemma destructor_can_complete_witness :
  exists c', rtc (SocketCallback.step 1) Examples.dtorEntered c' /\
             SocketCallback.pc c' = SocketCallback.Destroyed.
Proof.
  apply (destructor_can_complete 1 Examples.dtorEntered).
  apply SocketCallback.reach_entry. split; [reflexivity | discriminate].
Defined.


(** ** The thread pool of [Clients] *)

Section ThreadPool.
Import Clients.

(** The constructor starts the command thread, the outer maintenance
    thread and two inner maintenance threads, in this order, followed by
    the collector thread unless the node is a unit-test node; all are
    joinable, the run flag is set and the registry is empty.  The pool
    depends on the node type alone: neither the database type nor
    [hardware_concurrency()] changes it. *)
Theorem Clients_thread_pool (bdmT : BlockDataManagerThread) (hw : Z) :
  controlThreads_ (Clients bdmT hw) =
    [spawn mainthread; spawn outerthread; spawn innerthread;
     spawn innerthread] ++
    (if bool_decide (nodeType_ bdmT = Node_UnitTest) then []
     else [spawn gcThread]) /\
  length (controlThreads_ (Clients bdmT hw)) =
    (if bool_decide (nodeType_ bdmT = Node_UnitTest) then 4 else 5)%nat /\
  Forall (fun t => joinable t = true) (controlThreads_ (Clients bdmT hw)) /\
  run_ (Clients bdmT hw) = true /\
  BDVs_ (Clients bdmT hw) = ∅ /\
  (forall db' hw',
     controlThreads_
       (Clients {| getDbType := db'; nodeType_ := nodeType_ bdmT |} hw')
     = controlThreads_ (Clients bdmT hw)).
Proof.
  assert (Hpool : forall b h,
            controlThreads_ (Clients b h) =
              [spawn mainthread; spawn outerthread; spawn innerthread;
               spawn innerthread] ++
              (if bool_decide (nodeType_ b = Node_UnitTest) then []
               else [spawn gcThread])).
  { intros b h. unfold Clients. rewrite innerThreadCount_two.
    cbn [controlThreads_].
    destruct (bool_decide (nodeType_ b = Node_UnitTest)); reflexivity. }
  split; [apply Hpool|]. rewrite Hpool.
  split; [destruct (bool_decide _); reflexivity|].
  split.
  { destruct (bool_decide _); repeat constructor. }
  split; [reflexivity|]. split; [reflexivity|].
  intros db' hw'. rewrite Hpool. reflexivity.
Qed.

(** The inner thread count of the constructor is the one the
    specification asks for exactly when the node is not a production
    supernode, or the machine happens to have two hardware threads. *)
Theorem innerThreadCount_meets_spec_iff (bdmT : BlockDataManagerThread)
    (hw : Z) :
  innerThreadCount bdmT hw = innerThreadCount_spec bdmT hw <->
  getDbType bdmT <> ARMORY_DB_SUPER \/ nodeType_ bdmT = Node_UnitTest \/
  hw = 2%Z.
Proof.
  rewrite innerThreadCount_two. unfold innerThreadCount_spec.
  destruct bdmT as [db node]. cbn [getDbType nodeType_].
  destruct db, node; cbn.
  - split; [intros _; left; discriminate | reflexivity].
  - split; [intros _; left; discriminate | reflexivity].
  - split; [intros _; left; discriminate | reflexivity].
  - split; [intros _; left; discriminate | reflexivity].
  - split.
    + intros H. right. right. symmetry. exact H.
    + intros [H|[H|H]]; [contradiction | discriminate |].
      rewrite H. reflexivity.
  - split; [intros _; right; left; reflexivity | reflexivity].
Qed.

Lemma innerThreadCount_meets_spec_iff_witness :
  innerThreadCount
    {| getDbType := ARMORY_DB_FULL; nodeType_ := Node_BTC |} 16
  = innerThreadCount_spec
      {| getDbType := ARMORY_DB_FULL; nodeType_ := Node_BTC |} 16.
Proof.
  apply (innerThreadCount_meets_spec_iff
           {| getDbType := ARMORY_DB_FULL; nodeType_ := Node_BTC |} 16).
  left. discriminate.
Defined.

End ThreadPool.
